(** * msal_extensions.libsecret: the libsecret-backed secret store adapter

    A shallow embedding of [src/msal_extensions/libsecret.py]: the class
    [LibSecretAgent] (constructor, [save], [load], [clear]) and the
    function [trial_run].

    Python dicts are [gmap string _]; an argument that may be [None] is an
    [option].  The methods run in a state-and-exception monad: the state
    is the object the method is invoked on together with the outside
    world (the secret service's store, the trace of calls made to the
    service, and the records handed to the module's logger).  Where the
    sharing of the attributes dict with the caller matters, the adapter
    is an object that refers to a dict in a heap, and a method reads the
    dict as it is at the time of the call. *)

From stdpp Require Import gmap strings list fin_maps.

Open Scope string_scope.
Open Scope list_scope.

(** ** Exceptions

    The classes the module distinguishes: [gi.repository.GLib.Error],
    [AssertionError], and everything else ([TypeError], [KeyError],
    [KeyboardInterrupt], ...), kept by class name. *)

Inductive exception : Type :=
| GLibError (domain : string) (code : Z) (message : string)
| AssertionError
| OtherException (cls : string) (message : string).

Global Instance exception_eq_dec : EqDecision exception.
Proof. solve_decision. Defined.

(** ** The state-and-exception monad

    A computation takes a state and gives either a raised exception or a
    value, with the state reached.  The effects before a [raise] stay. *)

Definition M (S A : Type) : Type := S → (exception + A) * S.

Global Instance M_ret {S} : MRet (M S) := λ A a s, (inr a, s).

Global Instance M_bind {S} : MBind (M S) :=
  λ A B k m s, match m s with
               | (inr a, s') => k a s'
               | (inl e, s') => (inl e, s')
               end.

Definition raise {S A} (e : exception) : M S A := λ s, (inl e, s).

(** [assert cond]: raises [AssertionError] when [cond] is false (the
    statement as the interpreter runs it by default, with [__debug__]
    true). *)
Definition assert {S} (cond : bool) : M S unit :=
  if cond then mret () else raise AssertionError.

(** [try: body except (classes): handler]: the handler runs, in the state
    the body left, when the body raised an exception of one of the
    [classes]; any other exception passes through. *)
Definition try_except {S A} (body : M S A) (classes : exception → bool)
    (handler : exception → M S A) : M S A :=
  λ s, match body s with
       | (inl e, s') => if classes e then handler e s' else (inl e, s')
       | (inr a, s') => (inr a, s')
       end.

(** ** The [Secret] namespace of [gi.repository] *)

Module Secret.

Inductive SchemaAttributeType : Type := STRING | INTEGER | BOOLEAN.

Inductive SchemaFlags : Type := NONE | DONT_MATCH_NAME.

(** What [Secret.Schema.new(name, flags, attribute_types)] holds. *)
Record Schema : Type := Schema_new {
  name : string;
  flags : SchemaFlags;
  attribute_types : gmap string SchemaAttributeType;
}.

(** A call into the service, with its arguments (the trailing
    [cancellable] argument is always [None] in this module). *)
Inductive Request : Type :=
| password_store (schema : Schema) (attributes : gmap string string)
    (collection : option string) (label : string) (password : string)
| password_lookup (schema : Schema) (attributes : gmap string string)
| password_clear (schema : Schema) (attributes : gmap string string).

(** The secret service behind the three synchronous calls, over its own
    store [St]: each call answers with a value or raises, and leaves a
    store. *)
Record Service (St : Type) : Type := {
  password_store_sync :
    Schema → gmap string string → option string → string → string →
    St → (exception + bool) * St;
  password_lookup_sync :
    Schema → gmap string string → St → (exception + option string) * St;
  password_clear_sync :
    Schema → gmap string string → St → (exception + bool) * St;
}.

Global Arguments password_store_sync {St} _ _ _ _ _ _ _.
Global Arguments password_lookup_sync {St} _ _ _ _.
Global Arguments password_clear_sync {St} _ _ _ _.

End Secret.

Global Instance SchemaAttributeType_eq_dec : EqDecision Secret.SchemaAttributeType.
Proof. solve_decision. Defined.
Global Instance SchemaFlags_eq_dec : EqDecision Secret.SchemaFlags.
Proof. solve_decision. Defined.
Global Instance Schema_eq_dec : EqDecision Secret.Schema.
Proof. solve_decision. Defined.
Global Instance Request_eq_dec : EqDecision Secret.Request.
Proof. solve_decision. Defined.

(** The (schema, attributes) pair a request carries. *)
Definition request_filter (r : Secret.Request) : Secret.Schema * gmap string string :=
  match r with
  | Secret.password_store sch attrs _ _ _ => (sch, attrs)
  | Secret.password_lookup sch attrs => (sch, attrs)
  | Secret.password_clear sch attrs => (sch, attrs)
  end.

(** ** The logger *)

Inductive LogLevel : Type := WARNING | ERROR.

(** A record handed to [logger]: [logger.exception(msg)] logs at [ERROR]
    with the exception being handled attached, [logger.warning(msg)] logs
    at [WARNING] with none. *)
Record LogRecord : Type := {
  levelname : LogLevel;
  msg : string;
  exc_info : option exception;
}.

(** ** The world outside the adapter *)

Record World (St : Type) : Type := {
  service_state : St;
  calls : list Secret.Request;
  log : list LogRecord;
}.
Global Arguments Build_World {St} _ _ _.
Global Arguments service_state {St} _.
Global Arguments calls {St} _.
Global Arguments log {St} _.

Definition emit {St} (r : LogRecord) : M (World St) unit :=
  λ w, (inr (), Build_World (service_state w) (calls w) (log w ++ [r])).

Definition logger_exception {St} (current : exception) (message : string) : M (World St) unit :=
  emit {| levelname := ERROR; msg := message; exc_info := Some current |}.

Definition logger_warning {St} (message : string) : M (World St) unit :=
  emit {| levelname := WARNING; msg := message; exc_info := None |}.

(** A call into the service: the request joins the trace, the service
    answers from its store. *)
Definition service_call {St A} (r : Secret.Request)
    (f : St → (exception + A) * St) : M (World St) A :=
  λ w, let '(a, st) := f (service_state w) in
       (a, Build_World st (calls w ++ [r]) (log w)).

(** ** [class LibSecretAgent] *)

Record LibSecretAgent : Type := {
  _collection : option string;
  _attributes : gmap string string;
  _label : string;
  _schema : Secret.Schema;
}.

(** [d or {}] for an optional dict: [None] and the empty dict are both
    falsy. *)
Definition or_empty {V} (d : option (gmap string V)) : gmap string V :=
  match d with
  | Some m => if decide (m = ∅) then ∅ else m
  | None => ∅
  end.

(** [d.get(k, default)] *)
Definition get {V} (d : gmap string V) (k : string) (default : V) : V :=
  match d !! k with
  | Some v => v
  | None => default
  end.

(** [LibSecretAgent.__init__]; [label], [attribute_types] and
    [collection] default to [""], [None] and [None]. *)
Definition __init__ (schema_name : string)
    (attributes : option (gmap string string))
    (label : string)
    (attribute_types : option (gmap string Secret.SchemaAttributeType))
    (collection : option string) : LibSecretAgent :=
  let self_collection := collection in
  let self_attributes := or_empty attributes in
  let self_label := label in
  let self_schema :=
    Secret.Schema_new schema_name Secret.NONE
      (map_imap (λ k _, Some (get (or_empty attribute_types) k Secret.STRING))
                self_attributes) in
  {| _collection := self_collection;
     _attributes := self_attributes;
     _label := self_label;
     _schema := self_schema |}.

(** ** Methods

    A method runs on the object it is invoked on ([self]) and the world. *)

Definition Method (St A : Type) : Type := M (LibSecretAgent * World St) A.

(** Reading an attribute of [self]. *)
Definition self_attr {St A} (field : LibSecretAgent → A) : Method St A :=
  λ fr, (inr (field fr.1), fr).

(** A computation on the world alone, run from inside a method. *)
Definition outside {St A} (m : M (World St) A) : Method St A :=
  λ fr, let '(a, w) := m fr.2 in (a, (fr.1, w)).

(** Running a method body on an object bound to a local variable; the
    object is dropped when the body is left. *)
Definition with_object {St A} (obj : LibSecretAgent) (body : Method St A) : M (World St) A :=
  λ w, let '(a, fr) := body (obj, w) in (a, fr.2).

Section Agent.

Context {St : Type} (svc : Secret.Service St).

(** [LibSecretAgent.save] *)
Definition save (data : string) : Method St bool :=
  schema ← self_attr _schema;
  attributes ← self_attr _attributes;
  collection ← self_attr _collection;
  label ← self_attr _label;
  outside (service_call
    (Secret.password_store schema attributes collection label data)
    (Secret.password_store_sync svc schema attributes collection label data)).

(** [LibSecretAgent.load] *)
Definition load : Method St (option string) :=
  schema ← self_attr _schema;
  attributes ← self_attr _attributes;
  outside (service_call
    (Secret.password_lookup schema attributes)
    (Secret.password_lookup_sync svc schema attributes)).

(** [LibSecretAgent.clear] *)
Definition clear : Method St bool :=
  schema ← self_attr _schema;
  attributes ← self_attr _attributes;
  outside (service_call
    (Secret.password_clear schema attributes)
    (Secret.password_clear_sync svc schema attributes)).

(** ** [trial_run] *)

Definition message : string :=
  String.append
    "libsecret did not perform properly. Please refer to "
    "https://github.com/AzureAD/microsoft-authentication-extensions-for-python/wiki/Encryption-on-Linux".

(** The classes of [except (gi.repository.GLib.Error, AssertionError)]. *)
Definition GLibError_or_AssertionError (e : exception) : bool :=
  match e with
  | GLibError _ _ _ => true
  | AssertionError => true
  | OtherException _ _ => false
  end.

Definition payload : string := "Test Data".

(** The [try] block. *)
Definition trial_run_body : M (World St) unit :=
  let agent :=
    __init__ "Test Schema" (Some {[ "attr1" := "foo"; "attr2" := "bar" ]})
             "" None None in
  with_object agent (
    _ ← save payload;
    loaded ← load;
    _ ← assert (bool_decide (loaded = Some payload));
    _ ← clear;
    mret ()).

(** The [except] block; the bare [raise] raises the exception being
    handled again. *)
Definition trial_run_handler (current : exception) : M (World St) unit :=
  _ ← logger_exception current message;
  _ ← logger_warning message;
  raise current.

Definition trial_run : M (World St) unit :=
  try_except trial_run_body GLibError_or_AssertionError trial_run_handler.

(** ** Sequences of calls on one adapter

    A caller's use of an adapter: any calls, in any order; an exception
    of one call goes to the caller, who may go on calling. *)

Inductive Call : Type :=
| call_save (data : string)
| call_load
| call_clear.

Inductive Outcome : Type :=
| raised (e : exception)
| returned_bool (b : bool)
| returned_str (s : option string).

Definition outcome {A} (wrap : A → Outcome) (r : exception + A) : Outcome :=
  match r with
  | inl e => raised e
  | inr a => wrap a
  end.

Definition run_call (c : Call) (fr : LibSecretAgent * World St)
    : Outcome * (LibSecretAgent * World St) :=
  match c with
  | call_save data => let '(r, fr') := save data fr in (outcome returned_bool r, fr')
  | call_load => let '(r, fr') := load fr in (outcome returned_str r, fr')
  | call_clear => let '(r, fr') := clear fr in (outcome returned_bool r, fr')
  end.

Fixpoint run_calls (cs : list Call) (fr : LibSecretAgent * World St)
    : list Outcome * (LibSecretAgent * World St) :=
  match cs with
  | [] => ([], fr)
  | c :: cs' =>
      let '(o, fr') := run_call c fr in
      let '(os, fr'') := run_calls cs' fr' in
      (o :: os, fr'')
  end.

End Agent.

(** ** A functional secret service

    The service itself (libsecret and the keyring daemon behind it) is
    outside the repository; the definitions of this module follow its
    contract as the specification words it. *)

Module Keyring.

(** Modelled from the spec: a stored secret item of the OS secret
    service, tagged with its schema name and attributes, kept in a
    collection under a label. *)
Record Item : Type := {
  item_schema : string;
  item_attributes : gmap string string;
  item_collection : option string;
  item_label : string;
  item_secret : string;
}.

(** Modelled from the spec: the OS secret service's matching of an item
    by a (schema, attributes) filter, an item matching when it is tagged
    with the same schema name and this exact attribute set. *)
Definition Matches (schema : Secret.Schema) (attributes : gmap string string)
    (it : Item) : Prop :=
  item_schema it = Secret.name schema ∧ item_attributes it = attributes.

Global Instance Matches_dec schema attributes it :
  Decision (Matches schema attributes it).
Proof. unfold Matches. apply _. Defined.

(** Modelled from the spec: the OS secret service's [store], which
    creates or overwrites the one item matching (schema, attributes) in
    the target collection and reports that the write was accepted.  The
    item written last is the first to be found. *)
Definition store (schema : Secret.Schema) (attributes : gmap string string)
    (collection : option string) (label password : string)
    (items : list Item) : (exception + bool) * list Item :=
  let item := {| item_schema := Secret.name schema;
                 item_attributes := attributes;
                 item_collection := collection;
                 item_label := label;
                 item_secret := password |} in
  (inr true,
   item :: filter (λ it, ¬ (Matches schema attributes it
                            ∧ item_collection it = collection)) items).

(** Modelled from the spec: the OS secret service's [lookup], which
    gives the payload of the item matching (schema, attributes), or
    nothing when no item matches, and changes nothing. *)
Definition lookup (schema : Secret.Schema) (attributes : gmap string string)
    (items : list Item) : (exception + option string) * list Item :=
  (inr (item_secret <$> head (filter (Matches schema attributes) items)),
   items).

(** Modelled from the spec: the OS secret service's [clear], which
    deletes all items matching (schema, attributes) and reports whether
    at least one item was removed. *)
Definition clear (schema : Secret.Schema) (attributes : gmap string string)
    (items : list Item) : (exception + bool) * list Item :=
  (inr (bool_decide (filter (Matches schema attributes) items ≠ [])),
   filter (λ it, ¬ Matches schema attributes it) items).

(** Modelled from the spec: the OS secret service when it is
    functional, no call raising. *)
Definition service : Secret.Service (list Item) := {|
  Secret.password_store_sync := store;
  Secret.password_lookup_sync := lookup;
  Secret.password_clear_sync := clear;
|}.

End Keyring.

(** ** Services that fail

    Concrete services on which the failure paths are run. *)

(** No session bus to talk to, as inside a headless SSH session: every
    call raises [GLib.Error]. *)
Definition no_dbus : exception :=
  GLibError "g-io-error-quark" 0 "Cannot autolaunch D-Bus without X11 $DISPLAY".

Definition headless_service : Secret.Service unit := {|
  Secret.password_store_sync := λ _ _ _ _ _ st, (inl no_dbus, st);
  Secret.password_lookup_sync := λ _ _ st, (inl no_dbus, st);
  Secret.password_clear_sync := λ _ _ st, (inl no_dbus, st);
|}.

(** Accepts every write and keeps none. *)
Definition forgetful_service : Secret.Service unit := {|
  Secret.password_store_sync := λ _ _ _ _ _ st, (inr true, st);
  Secret.password_lookup_sync := λ _ _ st, (inr None, st);
  Secret.password_clear_sync := λ _ _ st, (inr false, st);
|}.

(** The binding rejects the arguments before the service is reached. *)
Definition bad_arguments : exception :=
  OtherException "TypeError" "argument attributes: Must be GLib.HashTable".

Definition ill_bound_service : Secret.Service unit := {|
  Secret.password_store_sync := λ _ _ _ _ _ st, (inl bad_arguments, st);
  Secret.password_lookup_sync := λ _ _ st, (inl bad_arguments, st);
  Secret.password_clear_sync := λ _ _ st, (inl bad_arguments, st);
|}.

(** Stores and finds, and loses the bus before clearing. *)
Definition no_clear_service : Secret.Service (list Keyring.Item) := {|
  Secret.password_store_sync := Keyring.store;
  Secret.password_lookup_sync := Keyring.lookup;
  Secret.password_clear_sync := λ _ _ st, (inl no_dbus, st);
|}.

(** ** Notions the statements use *)

(** The adapter and the requests of [trial_run]. *)
Definition test_schema : Secret.Schema :=
  Secret.Schema_new "Test Schema" Secret.NONE
    {[ "attr1" := Secret.STRING; "attr2" := Secret.STRING ]}.

Definition test_attributes : gmap string string :=
  {[ "attr1" := "foo"; "attr2" := "bar" ]}.

Definition test_agent : LibSecretAgent := {|
  _collection := None;
  _attributes := test_attributes;
  _label := "";
  _schema := test_schema;
|}.

Definition test_save : Secret.Request :=
  Secret.password_store test_schema test_attributes None "" "Test Data".
Definition test_load : Secret.Request :=
  Secret.password_lookup test_schema test_attributes.
Definition test_clear : Secret.Request :=
  Secret.password_clear test_schema test_attributes.

(** The two records of a failed [trial_run]. *)
Definition failure_records (e : exception) : list LogRecord :=
  [ {| levelname := ERROR; msg := message; exc_info := Some e |};
    {| levelname := WARNING; msg := message; exc_info := None |} ].

(** A world with nothing stored, asked or logged yet. *)
Definition fresh {St} (st : St) : World St := Build_World st [] [].

Section Statements.

Context {St : Type} (svc : Secret.Service St).

(** The world after a call that left the service in [st]. *)
Definition after_call (w : World St) (r : Secret.Request) (st : St) : World St :=
  Build_World st (calls w ++ [r]) (log w).

Definition save_request (a : LibSecretAgent) (data : string) : Secret.Request :=
  Secret.password_store (_schema a) (_attributes a) (_collection a) (_label a) data.
Definition load_request (a : LibSecretAgent) : Secret.Request :=
  Secret.password_lookup (_schema a) (_attributes a).
Definition clear_request (a : LibSecretAgent) : Secret.Request :=
  Secret.password_clear (_schema a) (_attributes a).

(** The request a call on the adapter [a] issues. *)
Definition call_request (a : LibSecretAgent) (c : Call) : Secret.Request :=
  match c with
  | call_save data => save_request a data
  | call_load => load_request a
  | call_clear => clear_request a
  end.

(** The world after the handler has run. *)
Definition with_failure_logged (e : exception) (w : World St) : World St :=
  Build_World (service_state w) (calls w) (log w ++ failure_records e).

(** The service calls behind the probe's three steps. *)
Definition probe_store : St → (exception + bool) * St :=
  Secret.password_store_sync svc test_schema test_attributes None "" "Test Data".
Definition probe_lookup : St → (exception + option string) * St :=
  Secret.password_lookup_sync svc test_schema test_attributes.
Definition probe_clear : St → (exception + bool) * St :=
  Secret.password_clear_sync svc test_schema test_attributes.

(** The ways the probe's sequence fails that the specification names,
    from the store [st]: a service-level error ([GLib.Error]) raised by
    the call behind [save], [load] or [clear], or a loaded value that
    is not the payload.  With the failure come the requests issued up
    to it and the store the service is left in. *)
Inductive probe_fails (st : St) : exception → list Secret.Request → St → Prop :=
| save_raises domain code text st1 :
    probe_store st = (inl (GLibError domain code text), st1) →
    probe_fails st (GLibError domain code text) [test_save] st1
| load_raises saved st1 domain code text st2 :
    probe_store st = (inr saved, st1) →
    probe_lookup st1 = (inl (GLibError domain code text), st2) →
    probe_fails st (GLibError domain code text) [test_save; test_load] st2
| load_differs saved st1 loaded st2 :
    probe_store st = (inr saved, st1) →
    probe_lookup st1 = (inr loaded, st2) →
    loaded ≠ Some "Test Data" →
    probe_fails st AssertionError [test_save; test_load] st2
| clear_raises saved st1 st2 domain code text st3 :
    probe_store st = (inr saved, st1) →
    probe_lookup st1 = (inr (Some "Test Data"), st2) →
    probe_clear st2 = (inl (GLibError domain code text), st3) →
    probe_fails st (GLibError domain code text)
      [test_save; test_load; test_clear] st3.

End Statements.

(** ** The adapter as an object

    [self._attributes = attributes or {}] keeps a reference and copies
    nothing: the adapter holds the very dict the caller passed when that
    dict is not empty, and a new empty dict of its own otherwise.  The
    schema is built once, from the keys the dict has at that time.  What
    the caller does to the dict afterwards is seen by the adapter. *)

(** The dict a reference points to; the dicts live in a heap. *)
Definition content (h : gmap nat (gmap string string)) (l : nat) : gmap string string :=
  default ∅ (h !! l).

(** The object: [_attributes] is a reference. *)
Record AgentObject : Type := {
  object_collection : option string;
  object_attributes : nat;
  object_label : string;
  object_schema : Secret.Schema;
}.

(** The adapter as a method reads it at the time of a call. *)
Definition view (h : gmap nat (gmap string string)) (o : AgentObject) : LibSecretAgent :=
  {| _collection := object_collection o;
     _attributes := content h (object_attributes o);
     _label := object_label o;
     _schema := object_schema o |}.

(** What a method leaves of [self] goes back to the object and to the
    dict it refers to. *)
Definition write_back (a : LibSecretAgent) (o : AgentObject)
    (h : gmap nat (gmap string string)) : AgentObject * gmap nat (gmap string string) :=
  ({| object_collection := _collection a;
      object_attributes := object_attributes o;
      object_label := _label a;
      object_schema := _schema a |},
   alter (λ _, _attributes a) (object_attributes o) h).

(** [LibSecretAgent(schema_name, attributes, label, attribute_types,
    collection)] with [attributes] given by reference, or [None]. *)
Definition construct (schema_name : string) (attributes : option nat)
    (label : string)
    (attribute_types : option (gmap string Secret.SchemaAttributeType))
    (collection : option string) (h : gmap nat (gmap string string))
    : AgentObject * gmap nat (gmap string string) :=
  let built :=
    __init__ schema_name (content h <$> attributes) label attribute_types collection in
  let object_at (l : nat) :=
    {| object_collection := _collection built;
       object_attributes := l;
       object_label := _label built;
       object_schema := _schema built |} in
  let new := stdpp.base.fresh (dom h) in
  let with_new_dict := (object_at new, <[new := ∅]> h) in
  match attributes with
  | Some l => if decide (content h l = ∅) then with_new_dict else (object_at l, h)
  | None => with_new_dict
  end.

(** A step in the life of an adapter: a call on it, or the caller
    changing a dict it holds ([d[k] = v], [d.pop(k, None)]). *)
Inductive Step : Type :=
| agent_call (c : Call)
| caller_setitem (l : nat) (k v : string)
| caller_pop (l : nat) (k : string).

Definition caller_effect (s : Step) (h : gmap nat (gmap string string))
    : gmap nat (gmap string string) :=
  match s with
  | agent_call _ => h
  | caller_setitem l k v => alter (insert k v) l h
  | caller_pop l k => alter (delete k) l h
  end.

Definition caller_effects (steps : list Step) (h : gmap nat (gmap string string))
    : gmap nat (gmap string string) :=
  foldl (λ h s, caller_effect s h) h steps.

(** The step does not change the dict at [l]. *)
Definition leaves (l : nat) (s : Step) : Prop :=
  match s with
  | agent_call _ => True
  | caller_setitem l' _ _ => l' ≠ l
  | caller_pop l' _ => l' ≠ l
  end.

(** The requests the calls of a life amount to: each call's own, with
    the schema of the object and the content its dict has by then. *)
Fixpoint lifetime_requests (h : gmap nat (gmap string string)) (o : AgentObject)
    (steps : list Step) : list Secret.Request :=
  match steps with
  | [] => []
  | agent_call c :: steps' =>
      call_request (view h o) c :: lifetime_requests h o steps'
  | s :: steps' => lifetime_requests (caller_effect s h) o steps'
  end.

Section Lifetime.

Context {St : Type} (svc : Secret.Service St).

Definition run_step (s : Step)
    (now : gmap nat (gmap string string) * AgentObject * World St)
    : list Outcome * (gmap nat (gmap string string) * AgentObject * World St) :=
  let '(h, o, w) := now in
  match s with
  | agent_call c =>
      let '(out, (a, w')) := run_call svc c (view h o, w) in
      let '(o', h') := write_back a o h in
      ([out], (h', o', w'))
  | _ => ([], (caller_effect s h, o, w))
  end.

Fixpoint run_steps (steps : list Step)
    (now : gmap nat (gmap string string) * AgentObject * World St)
    : list Outcome * (gmap nat (gmap string string) * AgentObject * World St) :=
  match steps with
  | [] => ([], now)
  | s :: steps' =>
      let '(outs, next) := run_step s now in
      let '(outs', last) := run_steps steps' next in
      (outs ++ outs', last)
  end.

(** The service answering a request, from its store. *)
Definition serve (r : Secret.Request) (st : St) : Outcome * St :=
  match r with
  | Secret.password_store schema attributes collection label password =>
      let '(x, st') :=
        Secret.password_store_sync svc schema attributes collection label password st in
      (outcome returned_bool x, st')
  | Secret.password_lookup schema attributes =>
      let '(x, st') := Secret.password_lookup_sync svc schema attributes st in
      (outcome returned_str x, st')
  | Secret.password_clear schema attributes =>
      let '(x, st') := Secret.password_clear_sync svc schema attributes st in
      (outcome returned_bool x, st')
  end.

(** The service answering requests one after the other. *)
Fixpoint serve_all (rs : list Secret.Request) (st : St) : list Outcome * St :=
  match rs with
  | [] => ([], st)
  | r :: rs' =>
      let '(out, st') := serve r st in
      let '(outs, st'') := serve_all rs' st' in
      (out :: outs, st'')
  end.

End Lifetime.

(** A service that keeps what it is asked: its store is the list of the
    requests it received. *)
Definition recording_service : Secret.Service (list Secret.Request) := {|
  Secret.password_store_sync := λ schema attributes collection label password st,
    (inr true, st ++ [Secret.password_store schema attributes collection label password]);
  Secret.password_lookup_sync := λ schema attributes st,
    (inr None, st ++ [Secret.password_lookup schema attributes]);
  Secret.password_clear_sync := λ schema attributes st,
    (inr false, st ++ [Secret.password_clear schema attributes]);
|}.

(** * Properties *)

(** ** Schema derivation *)

Lemma or_empty_Some {V} (m : gmap string V) : or_empty (Some m) = m.
Proof. unfold or_empty. by case_decide. Qed.

Lemma or_empty_lookup {V} (d : option (gmap string V)) (k : string) :
  or_empty d !! k = d ≫= (.!! k).
Proof.
  destruct d as [m|].
  - by rewrite or_empty_Some.
  - apply lookup_empty.
Qed.

Lemma get_default {V} (d : gmap string V) k (v : V) :
  get d k v = default v (d !! k).
Proof. unfold get. by destruct (d !! k). Qed.

(** C1: the schema built by the constructor carries the given name, and
    its type mapping has an entry exactly at the keys of [attributes]:
    the type [attribute_types] gives for the key when it has one, and
    [STRING] otherwise.  Keys of [attribute_types] that are not keys of
    [attributes] give no entry. *)
Theorem schema_derivation (schema_name : string)
    (attributes : gmap string string) (label : string)
    (attribute_types : option (gmap string Secret.SchemaAttributeType))
    (collection : option string) :
  let schema :=
    _schema (__init__ schema_name (Some attributes) label attribute_types collection) in
  Secret.name schema = schema_name
  ∧ dom (Secret.attribute_types schema) = dom attributes
  ∧ ∀ k : string,
      Secret.attribute_types schema !! k =
      match attributes !! k with
      | Some _ =>
          match attribute_types ≫= (.!! k) with
          | Some type => Some type
          | None => Some Secret.STRING
          end
      | None => None
      end.
Proof.
  cbn zeta. unfold __init__; cbn [_schema Secret.name Secret.attribute_types].
  rewrite or_empty_Some.
  assert (Hk : ∀ k : string,
    map_imap (λ k0 (_ : string),
        Some (get (or_empty attribute_types) k0 Secret.STRING)) attributes !! k =
    match attributes !! k with
    | Some _ =>
        match attribute_types ≫= (.!! k) with
        | Some type => Some type
        | None => Some Secret.STRING
        end
    | None => None
    end).
  { intros k. rewrite map_lookup_imap.
    destruct (attributes !! k) as [v|]; simpl; [|done].
    rewrite get_default, or_empty_lookup.
    by destruct (attribute_types ≫= (.!! k)). }
  split; [done|]. split; [|exact Hk].
  apply set_eq. intros k. rewrite !elem_of_dom, Hk.
  destruct (attributes !! k) as [v|].
  - destruct (attribute_types ≫= (.!! k)); split; eauto.
  - split; intros [? ?]; done.
Qed.

(** C10: with [attributes] given as [None] or as an empty dict, and
    whatever the other arguments, the constructor returns the adapter
    with no attributes and a schema with an empty type mapping. *)
Theorem init_without_attributes (schema_name label : string)
    (attribute_types : option (gmap string Secret.SchemaAttributeType))
    (collection : option string) :
  let empty_agent :=
    {| _collection := collection;
       _attributes := ∅;
       _label := label;
       _schema := Secret.Schema_new schema_name Secret.NONE ∅ |} in
  __init__ schema_name None label attribute_types collection = empty_agent
  ∧ __init__ schema_name (Some ∅) label attribute_types collection = empty_agent.
Proof.
  cbn zeta. unfold __init__. rewrite or_empty_Some. cbn [or_empty].
  by rewrite map_imap_empty.
Qed.

Lemma init_test_agent :
  __init__ "Test Schema" (Some {[ "attr1" := "foo"; "attr2" := "bar" ]}) "" None None
  = test_agent.
Proof. by vm_compute. Qed.

(** ** The three operations, run *)

Section Operations.

Context {St : Type} (svc : Secret.Service St).

Lemma save_run (a : LibSecretAgent) (data : string) (w : World St) :
  save svc data (a, w) =
  let r := Secret.password_store_sync svc (_schema a) (_attributes a)
             (_collection a) (_label a) data (service_state w) in
  (r.1, (a, after_call w (save_request a data) r.2)).
Proof.
  unfold save, mbind, M_bind, self_attr, outside, service_call; simpl.
  by destruct (Secret.password_store_sync _ _ _ _ _ _ _) as [[e|b] st].
Qed.

Lemma load_run (a : LibSecretAgent) (w : World St) :
  load svc (a, w) =
  let r := Secret.password_lookup_sync svc (_schema a) (_attributes a)
             (service_state w) in
  (r.1, (a, after_call w (load_request a) r.2)).
Proof.
  unfold load, mbind, M_bind, self_attr, outside, service_call; simpl.
  by destruct (Secret.password_lookup_sync _ _ _ _) as [[e|v] st].
Qed.

Lemma clear_run (a : LibSecretAgent) (w : World St) :
  clear svc (a, w) =
  let r := Secret.password_clear_sync svc (_schema a) (_attributes a)
             (service_state w) in
  (r.1, (a, after_call w (clear_request a) r.2)).
Proof.
  unfold clear, mbind, M_bind, self_attr, outside, service_call; simpl.
  by destruct (Secret.password_clear_sync _ _ _ _) as [[e|b] st].
Qed.

(** C6: an exception raised by the service call behind [save], [load]
    or [clear] is the exception the operation raises, in the store the
    service left; nothing is logged. *)
Theorem crud_propagates_service_error (a : LibSecretAgent) (w : World St)
    (e : exception) (st : St) :
  (∀ data,
     Secret.password_store_sync svc (_schema a) (_attributes a)
       (_collection a) (_label a) data (service_state w) = (inl e, st) →
     with_object a (save svc data) w
     = (inl e, after_call w (save_request a data) st))
  ∧ (Secret.password_lookup_sync svc (_schema a) (_attributes a)
       (service_state w) = (inl e, st) →
     with_object a (load svc) w = (inl e, after_call w (load_request a) st))
  ∧ (Secret.password_clear_sync svc (_schema a) (_attributes a)
       (service_state w) = (inl e, st) →
     with_object a (clear svc) w = (inl e, after_call w (clear_request a) st)).
Proof.
  unfold with_object. split; [|split].
  - intros data H. by rewrite save_run, H.
  - intros H. by rewrite load_run, H.
  - intros H. by rewrite clear_run, H.
Qed.

Lemma run_call_served (c : Call) (a : LibSecretAgent) (w : World St) :
  run_call svc c (a, w) =
  let answer := serve svc (call_request a c) (service_state w) in
  (answer.1, (a, after_call w (call_request a c) answer.2)).
Proof.
  destruct c as [data| |]; unfold run_call; cbn zeta.
  - rewrite save_run; cbn zeta. unfold call_request, save_request, serve.
    by destruct (Secret.password_store_sync _ _ _ _ _ _ _) as [[e|x] st].
  - rewrite load_run; cbn zeta. unfold call_request, load_request, serve.
    by destruct (Secret.password_lookup_sync _ _ _ _) as [[e|x] st].
  - rewrite clear_run; cbn zeta. unfold call_request, clear_request, serve.
    by destruct (Secret.password_clear_sync _ _ _ _) as [[e|x] st].
Qed.

Lemma load_by_filter (a1 a2 : LibSecretAgent) (w : World St) :
  _schema a1 = _schema a2 → _attributes a1 = _attributes a2 →
  with_object a1 (load svc) w = with_object a2 (load svc) w.
Proof.
  intros Hs Ha. unfold with_object. rewrite !load_run. unfold load_request.
  by rewrite Hs, Ha.
Qed.

Lemma clear_by_filter (a1 a2 : LibSecretAgent) (w : World St) :
  _schema a1 = _schema a2 → _attributes a1 = _attributes a2 →
  with_object a1 (clear svc) w = with_object a2 (clear svc) w.
Proof.
  intros Hs Ha. unfold with_object. rewrite !clear_run. unfold clear_request.
  by rewrite Hs, Ha.
Qed.

(** C7: two adapters built from the same schema name, attributes and
    attribute types, with different labels and the default collection,
    give the same answer and leave the same world (store, trace of
    requests, log) on [load] and on [clear]. *)
Theorem label_not_in_filter (schema_name : string)
    (attributes : option (gmap string string))
    (attribute_types : option (gmap string Secret.SchemaAttributeType))
    (label1 label2 : string) (w : World St) :
  let agent1 := __init__ schema_name attributes label1 attribute_types None in
  let agent2 := __init__ schema_name attributes label2 attribute_types None in
  with_object agent1 (load svc) w = with_object agent2 (load svc) w
  ∧ with_object agent1 (clear svc) w = with_object agent2 (clear svc) w.
Proof.
  cbn zeta. split; [apply load_by_filter|apply clear_by_filter]; done.
Qed.

End Operations.

(** ** The adapter over its life *)

Lemma write_back_view (h : gmap nat (gmap string string)) (o : AgentObject) :
  write_back (view h o) o h = (o, h).
Proof.
  unfold write_back, view; cbn. f_equal; [by destruct o|].
  apply alter_id. intros m Hm. unfold content. by rewrite Hm.
Qed.

Lemma construct_view (schema_name : string) (attributes : option nat)
    (label : string)
    (attribute_types : option (gmap string Secret.SchemaAttributeType))
    (collection : option string) (h0 : gmap nat (gmap string string)) :
  let made := construct schema_name attributes label attribute_types collection h0 in
  view made.2 made.1
  = __init__ schema_name (content h0 <$> attributes) label attribute_types collection.
Proof.
  cbn zeta. unfold construct. cbn zeta.
  destruct attributes as [l|]; [case_decide as Hempty|]; cbn [fst snd fmap option_fmap option_map];
    unfold view, __init__;
    cbn [_collection _attributes _label _schema object_collection object_attributes
         object_label object_schema]; f_equal.
  - rewrite or_empty_Some, Hempty. unfold content. by rewrite lookup_insert_eq.
  - by rewrite or_empty_Some.
  - unfold content. by rewrite lookup_insert_eq.
Qed.

Lemma construct_reference (schema_name : string) (attributes : option nat)
    (label : string)
    (attribute_types : option (gmap string Secret.SchemaAttributeType))
    (collection : option string) (h0 : gmap nat (gmap string string)) :
  let o := (construct schema_name attributes label attribute_types collection h0).1 in
  match attributes with
  | Some l =>
      if decide (content h0 l = ∅) then object_attributes o ∉ dom h0
      else object_attributes o = l
  | None => object_attributes o ∉ dom h0
  end.
Proof.
  cbn zeta. unfold construct. cbn zeta.
  destruct attributes as [l|]; [case_decide|]; cbn; try done; apply is_fresh.
Qed.

Lemma lifetime_requests_schema (o : AgentObject) (steps : list Step)
    (h : gmap nat (gmap string string)) :
  Forall (λ r, (request_filter r).1 = object_schema o) (lifetime_requests h o steps).
Proof.
  revert h. induction steps as [|[c|l k v|l k] steps IH]; intros h; cbn; auto.
  constructor; [by destruct c|apply IH].
Qed.

Lemma lifetime_requests_filter (o : AgentObject) (steps : list Step)
    (h : gmap nat (gmap string string)) :
  Forall (leaves (object_attributes o)) steps →
  Forall (λ r, request_filter r = (object_schema o, content h (object_attributes o)))
         (lifetime_requests h o steps).
Proof.
  revert h. induction steps as [|s steps IH]; intros h Hleave; [constructor|].
  apply Forall_cons in Hleave as [Hs Hrest].
  destruct s as [c|l k v|l k]; cbn [lifetime_requests].
  - constructor; [by destruct c|by apply IH].
  - specialize (IH (caller_effect (caller_setitem l k v) h) Hrest).
    unfold content, caller_effect in IH. by rewrite lookup_alter_ne in IH.
  - specialize (IH (caller_effect (caller_pop l k) h) Hrest).
    unfold content, caller_effect in IH. by rewrite lookup_alter_ne in IH.
Qed.

Section Life.

Context {St : Type} (svc : Secret.Service St).

Lemma run_steps_served (steps : list Step) (h : gmap nat (gmap string string))
    (o : AgentObject) (w : World St) :
  let requests := lifetime_requests h o steps in
  let served := serve_all svc requests (service_state w) in
  run_steps svc steps (h, o, w)
  = (served.1,
     (caller_effects steps h, o,
      Build_World served.2 (calls w ++ requests) (log w))).
Proof.
  cbn zeta. revert h w. induction steps as [|s steps IH]; intros h w.
  - destruct w. simpl. by rewrite app_nil_r.
  - destruct s as [c|l k v|l k]; cbn [run_steps run_step lifetime_requests].
    + rewrite run_call_served. cbv beta iota zeta. rewrite write_back_view.
      cbn [serve_all].
      destruct (serve svc (call_request (view h o) c) (service_state w)) as [out st1].
      cbn [fst snd]. rewrite IH. cbn [service_state calls log after_call].
      destruct (serve_all svc (lifetime_requests h o steps) st1) as [outs st2].
      cbn [fst snd]. by rewrite <- app_assoc.
    + rewrite IH. by destruct (serve_all _ _ _).
    + rewrite IH. by destruct (serve_all _ _ _).
Qed.

(** C5, as the code has it: over any life of an adapter, made of calls
    of [save], [load] and [clear] and of changes the caller makes to
    dicts it holds, no call changes the object's schema, label,
    collection or reference to its attributes dict, nor any dict; each
    call is answered by the service for the schema built at construction
    and the content the adapter's dict has at the time of the call.  The
    dict is the caller's own when the caller passed one that was not
    empty, and a new one otherwise; as long as no step changes that dict
    the service is passed the (schema, attributes) pair of the
    construction in every call. *)
Theorem filter_follows_the_dict (schema_name : string) (attributes : option nat)
    (label : string)
    (attribute_types : option (gmap string Secret.SchemaAttributeType))
    (collection : option string) (h0 : gmap nat (gmap string string))
    (steps : list Step) (w : World St) :
  let built :=
    __init__ schema_name (content h0 <$> attributes) label attribute_types collection in
  let o := (construct schema_name attributes label attribute_types collection h0).1 in
  let h := (construct schema_name attributes label attribute_types collection h0).2 in
  let requests := lifetime_requests h o steps in
  let served := serve_all svc requests (service_state w) in
  view h o = built
  ∧ run_steps svc steps (h, o, w)
    = (served.1,
       (caller_effects steps h, o,
        Build_World served.2 (calls w ++ requests) (log w)))
  ∧ Forall (λ r, (request_filter r).1 = _schema built) requests
  ∧ (Forall (leaves (object_attributes o)) steps →
     Forall (λ r, request_filter r = (_schema built, _attributes built)) requests)
  ∧ match attributes with
    | Some l =>
        if decide (content h0 l = ∅) then object_attributes o ∉ dom h0
        else object_attributes o = l
    | None => object_attributes o ∉ dom h0
    end.
Proof.
  cbn zeta.
  pose proof (construct_view schema_name attributes label attribute_types
                collection h0) as Hview.
  cbn zeta in Hview.
  set (o := (construct schema_name attributes label attribute_types collection h0).1) in *.
  set (h := (construct schema_name attributes label attribute_types collection h0).2) in *.
  split; [exact Hview|]. split; [apply run_steps_served|].
  rewrite <- Hview. cbn [view _schema _attributes].
  split; [apply lifetime_requests_schema|].
  split; [apply lifetime_requests_filter|].
  apply construct_reference.
Qed.

End Life.

(** ** The availability probe *)

Section Probe.

Context {St : Type} (svc : Secret.Service St).

Lemma trial_run_body_run (w : World St) :
  trial_run_body svc w =
  let s := probe_store svc (service_state w) in
  let w1 := after_call w test_save s.2 in
  match s.1 with
  | inl e => (inl e, w1)
  | inr _ =>
      let l := probe_lookup svc s.2 in
      let w2 := after_call w1 test_load l.2 in
      match l.1 with
      | inl e => (inl e, w2)
      | inr loaded =>
          if bool_decide (loaded = Some "Test Data") then
            let c := probe_clear svc l.2 in
            let w3 := after_call w2 test_clear c.2 in
            match c.1 with
            | inl e => (inl e, w3)
            | inr _ => (inr (), w3)
            end
          else (inl AssertionError, w2)
      end
  end.
Proof.
  unfold trial_run_body. rewrite init_test_agent.
  unfold with_object, mbind, M_bind at 1.
  rewrite save_run. cbn zeta.
  change (Secret.password_store_sync svc _ _ _ _ _ _) with (probe_store svc (service_state w)).
  change (save_request test_agent payload) with test_save.
  destruct (probe_store svc (service_state w)) as [[e|saved] st1]; cbn [fst snd]; [done|].
  unfold M_bind at 1. rewrite load_run. cbn zeta. cbn [fst snd].
  change (Secret.password_lookup_sync svc _ _ _) with (probe_lookup svc st1).
  change (load_request test_agent) with test_load.
  destruct (probe_lookup svc st1) as [[e|loaded] st2]; cbn [fst snd]; [done|].
  unfold M_bind at 1, assert, payload.
  case_bool_decide; [|done].
  unfold mret, M_ret at 1. unfold M_bind at 1. rewrite clear_run.
  cbn zeta. cbn [fst snd].
  change (Secret.password_clear_sync svc _ _ _) with (probe_clear svc st2).
  change (clear_request test_agent) with test_clear.
  by destruct (probe_clear svc st2) as [[e|cleared] st3].
Qed.

Lemma trial_run_run (w : World St) :
  trial_run svc w =
  match trial_run_body svc w with
  | (inl e, w') =>
      (inl e, if GLibError_or_AssertionError e then with_failure_logged e w' else w')
  | (inr u, w') => (inr u, w')
  end.
Proof.
  unfold trial_run, try_except.
  destruct (trial_run_body svc w) as [[e|[]] w']; [|done].
  destruct (GLibError_or_AssertionError e); [|done].
  unfold trial_run_handler, mbind, M_bind, logger_exception, logger_warning,
    emit, raise, with_failure_logged, failure_records; simpl.
  by rewrite <- app_assoc.
Qed.

Lemma trial_run_body_log (w : World St) :
  log (trial_run_body svc w).2 = log w.
Proof.
  rewrite trial_run_body_run. cbn zeta.
  destruct (probe_store svc (service_state w)) as [[e|saved] st1]; cbn [fst snd]; [done|].
  destruct (probe_lookup svc st1) as [[e|loaded] st2]; cbn [fst snd]; [done|].
  case_bool_decide; [|done].
  by destruct (probe_clear svc st2) as [[e|cleared] st3].
Qed.

(** C3: the probe builds the adapter of schema name ["Test Schema"]
    with the two string attributes [attr1] and [attr2], then asks the
    service, once each and in this order, to store ["Test Data"], to
    look it up, and to clear; a call that raises, or a loaded value
    other than ["Test Data"], ends the sequence there with that failure
    as the probe's own. *)
Theorem trial_run_linear_sequence (w : World St) :
  let run := trial_run svc w in
  (run.1, calls run.2) =
  match probe_store svc (service_state w) with
  | (inl e, _) => (inl e, calls w ++ [test_save])
  | (inr _, st1) =>
      match probe_lookup svc st1 with
      | (inl e, _) => (inl e, calls w ++ [test_save; test_load])
      | (inr loaded, st2) =>
          if bool_decide (loaded = Some "Test Data") then
            match probe_clear svc st2 with
            | (inl e, _) =>
                (inl e, calls w ++ [test_save; test_load; test_clear])
            | (inr _, _) =>
                (inr (), calls w ++ [test_save; test_load; test_clear])
            end
          else (inl AssertionError, calls w ++ [test_save; test_load])
      end
  end.
Proof.
  cbn zeta. rewrite trial_run_run, trial_run_body_run. cbn zeta.
  destruct (probe_store svc (service_state w)) as [[e|saved] st1]; cbn [fst snd].
  { by destruct (GLibError_or_AssertionError e). }
  destruct (probe_lookup svc st1) as [[e|loaded] st2]; cbn [fst snd].
  { destruct (GLibError_or_AssertionError e); simpl; by rewrite <- app_assoc. }
  case_bool_decide; [|simpl; by rewrite <- app_assoc].
  destruct (probe_clear svc st2) as [[e|cleared] st3]; cbn [fst snd].
  - destruct (GLibError_or_AssertionError e); simpl; by rewrite <- !app_assoc.
  - simpl. by rewrite <- !app_assoc.
Qed.

(** C2: when the call behind [save], [load] or [clear] raises a
    service-level error, or the loaded value is not the payload, the
    probe hands the logger two records, the first at [ERROR] with the
    failure attached and the second a [WARNING] with the message that
    points to the remediation page, and then raises that same
    failure. *)
Theorem trial_run_logs_and_reraises (w : World St) (e : exception)
    (issued : list Secret.Request) (st : St) :
  probe_fails svc (service_state w) e issued st →
  trial_run svc w =
  (inl e,
   Build_World st (calls w ++ issued)
     (log w ++ [ {| levelname := ERROR; msg := message; exc_info := Some e |};
                 {| levelname := WARNING; msg := message; exc_info := None |} ])).
Proof.
  intros Hfail. rewrite trial_run_run, trial_run_body_run. cbn zeta.
  destruct Hfail as [d c t st1 Hs | saved st1 d c t st2 Hs Hl
                    | saved st1 loaded st2 Hs Hl Hne
                    | saved st1 st2 d c t st3 Hs Hl Hc].
  - by rewrite Hs.
  - rewrite Hs; cbn [fst snd]. rewrite Hl; cbn [fst snd].
    unfold with_failure_logged, after_call; simpl. by rewrite <- app_assoc.
  - rewrite Hs; cbn [fst snd]. rewrite Hl; cbn [fst snd].
    rewrite bool_decide_eq_false_2 by done.
    unfold with_failure_logged, after_call; simpl. by rewrite <- app_assoc.
  - rewrite Hs; cbn [fst snd]. rewrite Hl; cbn [fst snd].
    rewrite bool_decide_eq_true_2 by done. rewrite Hc; cbn [fst snd].
    unfold with_failure_logged, after_call; simpl. by rewrite <- !app_assoc.
Qed.

(** C9: the handler takes [GLib.Error] and [AssertionError] and nothing
    else; an exception of any other class raised in the [try] block
    leaves the probe as it left the block, no record having been handed
    to the logger. *)
Theorem trial_run_passes_other_errors :
  (∀ e, GLibError_or_AssertionError e = true ↔
        (∃ domain code text, e = GLibError domain code text)
        ∨ e = AssertionError)
  ∧ ∀ (w w' : World St) (cls text : string),
      trial_run_body svc w = (inl (OtherException cls text), w') →
      trial_run svc w = (inl (OtherException cls text), w')
      ∧ log w' = log w.
Proof.
  split.
  - intros [d c t| |cls t]; simpl; split; try done; eauto.
    + intros [(? & ? & ? & ?)|?]; done.
  - intros w w' cls t Hbody. split.
    + by rewrite trial_run_run, Hbody.
    + pose proof (trial_run_body_log w) as Hlog. by rewrite Hbody in Hlog.
Qed.

End Probe.

(** ** The adapter on a functional service *)

Section Functional.

Lemma filter_none_left {A} (P : A → Prop) `{!∀ x, Decision (P x)} (l : list A) :
  filter P (filter (λ x, ¬ P x) l) = [].
Proof.
  apply elem_of_nil_inv. intros x. rewrite !list_elem_of_filter. tauto.
Qed.

Lemma filter_not_nil {A} (P : A → Prop) `{!∀ x, Decision (P x)} (l : list A) :
  filter P l ≠ [] ↔ ∃ x, x ∈ l ∧ P x.
Proof.
  split.
  - destruct (filter P l) as [|x l'] eqn:Hf; [done|]. intros _.
    assert (Hx : x ∈ filter P l) by (rewrite Hf; left).
    apply list_elem_of_filter in Hx. exists x. tauto.
  - intros (x & Hin & HP) Hnil.
    by apply (filter_nil_not_elem_of P l x).
Qed.

Lemma keyring_save_run (a : LibSecretAgent) (x : string)
    (w : World (list Keyring.Item)) :
  with_object a (save Keyring.service x) w =
  (inr true,
   after_call w (save_request a x)
     ((Keyring.store (_schema a) (_attributes a) (_collection a) (_label a) x
         (service_state w)).2)).
Proof. unfold with_object. by rewrite save_run. Qed.

Lemma keyring_lookup_stored (a : LibSecretAgent) (x : string)
    (items : list Keyring.Item) :
  (Keyring.lookup (_schema a) (_attributes a)
     (Keyring.store (_schema a) (_attributes a) (_collection a) (_label a) x
        items).2).1
  = inr (Some x).
Proof.
  unfold Keyring.lookup, Keyring.store; cbn [fst snd].
  by rewrite filter_cons_True.
Qed.

(** C4: on a functional service, [load] after [save x] on one adapter
    gives [x]; and on the adapter of schema name ["Test Schema"] with
    attributes [attr1 = "foo"], [attr2 = "bar"], whatever the store
    held before, saving ["Test Data"] gives [True], loading gives
    ["Test Data"], clearing gives [True] and loading again gives
    [None]. *)
Theorem save_load_round_trip :
  (∀ (a : LibSecretAgent) (x : string) (w : World (list Keyring.Item)),
     ∃ w1 w2,
       with_object a (save Keyring.service x) w = (inr true, w1)
       ∧ with_object a (load Keyring.service) w1 = (inr (Some x), w2))
  ∧ ∀ w : World (list Keyring.Item),
      let agent :=
        __init__ "Test Schema" (Some {[ "attr1" := "foo"; "attr2" := "bar" ]})
                 "" None None in
      (run_calls Keyring.service
         [call_save "Test Data"; call_load; call_clear; call_load]
         (agent, w)).1
      = [returned_bool true; returned_str (Some "Test Data");
         returned_bool true; returned_str None].
Proof.
  split.
  - intros a x w. eexists _, _. split; [apply keyring_save_run|].
    unfold with_object. rewrite load_run. cbn zeta.
    cbn [service_state after_call Secret.password_lookup_sync Keyring.service].
    by rewrite keyring_lookup_stored.
  - intros w. cbn zeta. rewrite init_test_agent.
    cbn [run_calls run_call].
    rewrite save_run; cbn zeta; cbn [fst snd outcome].
    rewrite load_run; cbn zeta; cbn [fst snd outcome].
    rewrite clear_run; cbn zeta; cbn [fst snd outcome].
    rewrite load_run; cbn zeta; cbn [fst snd outcome].
    cbn [service_state after_call Secret.password_store_sync
         Secret.password_lookup_sync Secret.password_clear_sync Keyring.service].
    rewrite (keyring_lookup_stored test_agent).
    unfold Keyring.clear, Keyring.lookup; cbn [fst snd outcome].
    rewrite filter_none_left.
    rewrite bool_decide_eq_true_2; [done|].
    unfold Keyring.store; cbn [fst snd]. by rewrite filter_cons_True.
Qed.

(** C8: on a functional service [clear] gives [False] when no stored
    item matches the adapter's schema and attributes, and [True] when
    some item does; the items that matched are gone from the store and
    the others are kept. *)
Theorem clear_reports_removal (a : LibSecretAgent)
    (w : World (list Keyring.Item)) :
  ∃ (removed : bool) (w' : World (list Keyring.Item)),
    with_object a (clear Keyring.service) w = (inr removed, w')
    ∧ (removed = false ↔
       ∀ it, it ∈ service_state w → ¬ Keyring.Matches (_schema a) (_attributes a) it)
    ∧ (removed = true ↔
       ∃ it, it ∈ service_state w ∧ Keyring.Matches (_schema a) (_attributes a) it)
    ∧ ∀ it, it ∈ service_state w' ↔
            it ∈ service_state w ∧ ¬ Keyring.Matches (_schema a) (_attributes a) it.
Proof.
  eexists _, _. split.
  { unfold with_object. rewrite clear_run. cbn zeta. unfold Keyring.service.
    cbn [Secret.password_clear_sync Keyring.clear fst snd]. reflexivity. }
  cbn [service_state after_call].
  pose proof (filter_not_nil (Keyring.Matches (_schema a) (_attributes a))
                (service_state w)) as Hne.
  split; [|split].
  - rewrite bool_decide_eq_false, Hne. split.
    + intros Hno it Hin Hm. apply Hno. eauto.
    + intros Hall (it & Hin & Hm). by apply (Hall it).
  - by rewrite bool_decide_eq_true, Hne.
  - intros it. rewrite list_elem_of_filter. tauto.
Qed.

(** The functional service matches by schema name and attributes, so
    adapters that differ in their attribute types too, besides their
    labels, get the same answers from it and leave the same store. *)
Lemma keyring_ignores_attribute_types (schema_name : string)
    (attributes : option (gmap string string))
    (types1 types2 : option (gmap string Secret.SchemaAttributeType))
    (label1 label2 : string) (w : World (list Keyring.Item)) :
  let agent1 := __init__ schema_name attributes label1 types1 None in
  let agent2 := __init__ schema_name attributes label2 types2 None in
  let same {A} (r1 r2 : (exception + A) * World (list Keyring.Item)) :=
    r1.1 = r2.1 ∧ service_state r1.2 = service_state r2.2 in
  same (with_object agent1 (load Keyring.service) w)
       (with_object agent2 (load Keyring.service) w)
  ∧ same (with_object agent1 (clear Keyring.service) w)
         (with_object agent2 (clear Keyring.service) w).
Proof.
  cbn zeta. unfold with_object. rewrite !load_run, !clear_run. cbn zeta.
  done.
Qed.

End Functional.

(** ** Runs on concrete services *)

(** On a functional service with an empty store the probe returns, leaves
    the store empty and logs nothing. *)
Example trial_run_on_keyring :
  trial_run Keyring.service (fresh [])
  = (inr (), Build_World [] [test_save; test_load; test_clear] []).
Proof. by vm_compute. Qed.

(** A partial type mapping with a key that is no attribute. *)
Example schema_derivation_partial :
  Secret.attribute_types
    (_schema (__init__ "s" (Some {[ "n" := "1"; "u" := "x" ]}) "l"
                (Some {[ "n" := Secret.INTEGER; "z" := Secret.BOOLEAN ]}) None))
  = {[ "n" := Secret.INTEGER; "u" := Secret.STRING ]}.
Proof. by vm_compute. Qed.

(** The probe on a service with no bus, on one that keeps nothing, and on
    one that loses the bus before the clearing. *)
Lemma trial_run_logs_and_reraises_witness :
  (probe_fails headless_service () no_dbus [test_save] ()
   ∧ trial_run headless_service (fresh ())
     = (inl no_dbus, Build_World () [test_save] (failure_records no_dbus)))
  ∧ (probe_fails forgetful_service () AssertionError [test_save; test_load] ()
     ∧ trial_run forgetful_service (fresh ())
       = (inl AssertionError,
          Build_World () [test_save; test_load] (failure_records AssertionError)))
  ∧ (probe_fails no_clear_service [] no_dbus [test_save; test_load; test_clear]
       (Keyring.store test_schema test_attributes None "" "Test Data" []).2
     ∧ trial_run no_clear_service (fresh [])
       = (inl no_dbus,
          Build_World (Keyring.store test_schema test_attributes None "" "Test Data" []).2
            [test_save; test_load; test_clear] (failure_records no_dbus))).
Proof.
  assert (H1 : probe_fails headless_service () no_dbus [test_save] ()).
  { by apply save_raises. }
  assert (H2 : probe_fails forgetful_service () AssertionError [test_save; test_load] ()).
  { by apply (load_differs forgetful_service () true () None ()). }
  assert (H3 : probe_fails no_clear_service [] no_dbus [test_save; test_load; test_clear]
                 (Keyring.store test_schema test_attributes None "" "Test Data" []).2).
  { by eapply (clear_raises no_clear_service [] true). }
  split; [|split]; (split; [done|]).
  - exact (trial_run_logs_and_reraises headless_service (fresh ()) _ _ _ H1).
  - exact (trial_run_logs_and_reraises forgetful_service (fresh ()) _ _ _ H2).
  - exact (trial_run_logs_and_reraises no_clear_service (fresh []) _ _ _ H3).
Defined.

(** The three operations on a service with no bus. *)
Lemma crud_propagates_service_error_witness :
  with_object test_agent (save headless_service "Test Data") (fresh ())
  = (inl no_dbus, Build_World () [test_save] [])
  ∧ with_object test_agent (load headless_service) (fresh ())
    = (inl no_dbus, Build_World () [test_load] [])
  ∧ with_object test_agent (clear headless_service) (fresh ())
    = (inl no_dbus, Build_World () [test_clear] []).
Proof.
  pose proof (crud_propagates_service_error headless_service test_agent
                (fresh ()) no_dbus ()) as (Hsave & Hload & Hclear).
  split; [|split].
  - apply (Hsave "Test Data"). reflexivity.
  - apply Hload. reflexivity.
  - apply Hclear. reflexivity.
Defined.

(** The probe on a binding that rejects the arguments. *)
Lemma trial_run_passes_other_errors_witness :
  trial_run_body ill_bound_service (fresh ())
  = (inl bad_arguments, Build_World () [test_save] [])
  ∧ trial_run ill_bound_service (fresh ())
    = (inl bad_arguments, Build_World () [test_save] []).
Proof.
  assert (Hbody : trial_run_body ill_bound_service (fresh ())
                  = (inl bad_arguments, Build_World () [test_save] [])).
  { by vm_compute. }
  split; [exact Hbody|].
  exact (proj1 (proj2 (trial_run_passes_other_errors ill_bound_service)
                  (fresh ()) _ _ _ Hbody)).
Defined.

(** * Further properties of the adapter and the probe *)

(** ** What the constructor takes from its arguments *)

Lemma get_or_empty {V} (d : option (gmap string V)) (k : string) (v : V) :
  get (or_empty d) k v = default v (d ≫= (.!! k)).
Proof. by rewrite get_default, or_empty_lookup. Qed.

Lemma init_schema_lookup (schema_name : string) (attributes : gmap string string)
    (label : string) (attribute_types : option (gmap string Secret.SchemaAttributeType))
    (collection : option string) (k : string) :
  Secret.attribute_types
    (_schema (__init__ schema_name (Some attributes) label attribute_types collection))
  !! k
  = (λ _, default Secret.STRING (attribute_types ≫= (.!! k))) <$> attributes !! k.
Proof.
  unfold __init__; cbn [_schema Secret.attribute_types].
  rewrite or_empty_Some, map_lookup_imap.
  destruct (attributes !! k); simpl; [|done]. by rewrite get_or_empty.
Qed.

Lemma init_types_agree (schema_name : string) (attributes : gmap string string)
    (label : string) (types1 types2 : option (gmap string Secret.SchemaAttributeType))
    (collection : option string) :
  (∀ k, k ∈ dom attributes →
        default Secret.STRING (types1 ≫= (.!! k))
        = default Secret.STRING (types2 ≫= (.!! k))) →
  __init__ schema_name (Some attributes) label types1 collection
  = __init__ schema_name (Some attributes) label types2 collection.
Proof.
  intros Hagree. unfold __init__. rewrite or_empty_Some. do 2 f_equal.
  apply map_eq. intros k. rewrite !map_lookup_imap.
  destruct (attributes !! k) as [v|] eqn:Hk; simpl; [|done].
  rewrite !get_or_empty. f_equal. apply Hagree, elem_of_dom. eauto.
Qed.

(** X5: the schema is derived from the keys of [attributes] alone: two
    attribute dicts with the same keys, whatever their values, labels
    and collections, get the same schema. *)
Theorem schema_ignores_attribute_values (schema_name : string)
    (attributes1 attributes2 : gmap string string) (label1 label2 : string)
    (attribute_types : option (gmap string Secret.SchemaAttributeType))
    (collection1 collection2 : option string) :
  dom attributes1 = dom attributes2 →
  _schema (__init__ schema_name (Some attributes1) label1 attribute_types collection1)
  = _schema (__init__ schema_name (Some attributes2) label2 attribute_types collection2).
Proof.
  intros Hdom.
  assert (Hkeys : ∀ k, is_Some (attributes1 !! k) ↔ is_Some (attributes2 !! k)).
  { intros k. by rewrite <- !elem_of_dom, Hdom. }
  unfold __init__; cbn [_schema]. rewrite !or_empty_Some. f_equal.
  apply map_eq. intros k. rewrite !map_lookup_imap.
  destruct (Hkeys k) as [H12 H21].
  destruct (attributes1 !! k) as [v1|], (attributes2 !! k) as [v2|]; simpl; try done.
  - by destruct H12 as [? ?].
  - by destruct H21 as [? ?].
Qed.

(** X6: [attribute_types] counts only at the keys of [attributes]: two
    type mappings (either may be [None]) give the same adapter exactly
    when, at every key of [attributes], they give the same type, a
    missing entry standing for [STRING]. *)
Theorem init_depends_on_types_at_attribute_keys (schema_name : string)
    (attributes : gmap string string) (label : string)
    (types1 types2 : option (gmap string Secret.SchemaAttributeType))
    (collection : option string) :
  __init__ schema_name (Some attributes) label types1 collection
  = __init__ schema_name (Some attributes) label types2 collection
  ↔ ∀ k, k ∈ dom attributes →
         default Secret.STRING (types1 ≫= (.!! k))
         = default Secret.STRING (types2 ≫= (.!! k)).
Proof.
  split; [|apply init_types_agree].
  intros Heq k Hk. apply elem_of_dom in Hk as [v Hv].
  pose proof (init_schema_lookup schema_name attributes label types1 collection k) as H1.
  pose proof (init_schema_lookup schema_name attributes label types2 collection k) as H2.
  rewrite Heq, H2, Hv in H1. simpl in H1. by injection H1.
Qed.

(** X7: a type mapping that gives [STRING] wherever it has an entry for
    an attribute is the same as giving none. *)
Theorem all_string_types_as_none (schema_name : string)
    (attributes : gmap string string) (label : string)
    (attribute_types : gmap string Secret.SchemaAttributeType)
    (collection : option string) :
  (∀ k type, k ∈ dom attributes → attribute_types !! k = Some type →
             type = Secret.STRING) →
  __init__ schema_name (Some attributes) label (Some attribute_types) collection
  = __init__ schema_name (Some attributes) label None collection.
Proof.
  intros Hall. apply init_types_agree. intros k Hk. simpl.
  destruct (attribute_types !! k) as [type|] eqn:Ht; simpl; [|done].
  by apply (Hall k).
Qed.

(** ** What the operations send and leave *)

Section MoreOperations.

Context {St : Type} (svc : Secret.Service St).

(** X1: [load] and [clear] use neither the label nor the collection of
    the adapter: adapters built from the same schema name, attributes
    and attribute types give the same result and leave the same world,
    whatever their labels and their collections, default or not. *)
Theorem load_clear_ignore_collection (schema_name : string)
    (attributes : option (gmap string string))
    (attribute_types : option (gmap string Secret.SchemaAttributeType))
    (label1 label2 : string) (collection1 collection2 : option string)
    (w : World St) :
  let agent1 := __init__ schema_name attributes label1 attribute_types collection1 in
  let agent2 := __init__ schema_name attributes label2 attribute_types collection2 in
  with_object agent1 (load svc) w = with_object agent2 (load svc) w
  ∧ with_object agent1 (clear svc) w = with_object agent2 (clear svc) w.
Proof.
  cbn zeta. split; [apply load_by_filter|apply clear_by_filter]; done.
Qed.

(** X2: the outcomes of a sequence of calls on an adapter are the
    answers of the service to the calls' requests (store with the
    adapter's schema, attributes, collection and label and the data;
    lookup and clear with its schema and attributes), each request being
    answered from the store the one before left, whether that one raised
    or not; the store is left as the last answer left it, the adapter is
    as it was and nothing is handed to the logger. *)
Theorem calls_are_served_in_order (cs : list Call) (a : LibSecretAgent)
    (w : World St) :
  let requests := map (call_request a) cs in
  let served := serve_all svc requests (service_state w) in
  run_calls svc cs (a, w)
  = (served.1, (a, Build_World served.2 (calls w ++ requests) (log w))).
Proof.
  cbn zeta. revert w. induction cs as [|c cs IH]; intros w.
  - destruct w. simpl. by rewrite app_nil_r.
  - cbn [run_calls map serve_all]. rewrite run_call_served. cbn zeta.
    destruct (serve svc (call_request a c) (service_state w)) as [out st1].
    cbn [fst snd]. rewrite IH. cbn [service_state calls log after_call].
    destruct (serve_all svc (map (call_request a) cs) st1) as [outs st2].
    cbn [fst snd]. by rewrite <- app_assoc.
Qed.

(** ** What the probe logs and when it returns *)

(** X3: the probe hands the logger either nothing or the two failure
    records, and the two records exactly when it raises a [GLib.Error]
    or an [AssertionError]; when it returns, and when it raises anything
    else, the log is as it was. *)
Theorem trial_run_log (w : World St) :
  log (trial_run svc w).2
  = log w ++ match (trial_run svc w).1 with
             | inl e => if GLibError_or_AssertionError e
                        then failure_records e else []
             | inr _ => []
             end.
Proof.
  rewrite trial_run_run. pose proof (trial_run_body_log svc w) as Hlog.
  destruct (trial_run_body svc w) as [[e|u] w']; cbn [fst snd] in *.
  - destruct (GLibError_or_AssertionError e); simpl.
    + by rewrite Hlog.
    + by rewrite app_nil_r.
  - by rewrite app_nil_r.
Qed.

(** X4: the probe returns exactly when none of the three service calls
    raises and the lookup gives ["Test Data"]; the booleans that the
    store and the clear return are not looked at.  It then leaves the
    store as the clear left it, the three requests on the trace and the
    log as it was. *)
Theorem trial_run_returns_iff (w w' : World St) :
  trial_run svc w = (inr (), w')
  ↔ ∃ (saved : bool) (st1 st2 : St) (cleared : bool) (st3 : St),
      probe_store svc (service_state w) = (inr saved, st1)
      ∧ probe_lookup svc st1 = (inr (Some "Test Data"), st2)
      ∧ probe_clear svc st2 = (inr cleared, st3)
      ∧ w' = Build_World st3 (calls w ++ [test_save; test_load; test_clear]) (log w).
Proof.
  rewrite trial_run_run, trial_run_body_run. cbn zeta.
  destruct (probe_store svc (service_state w)) as [[e|saved] st1] eqn:Hs;
    cbn [fst snd].
  { split; [done|]. by intros (? & ? & ? & ? & ? & ? & _). }
  destruct (probe_lookup svc st1) as [[e|loaded] st2] eqn:Hl; cbn [fst snd].
  { split; [done|]. intros (? & ? & ? & ? & ? & [= <- <-] & Hl' & _).
    by rewrite Hl in Hl'. }
  case_bool_decide as Hloaded.
  - subst loaded.
    destruct (probe_clear svc st2) as [[e|cleared] st3] eqn:Hc; cbn [fst snd].
    + split; [done|].
      intros (? & ? & ? & ? & ? & [= <- <-] & Hl' & Hc' & _).
      rewrite Hl in Hl'. injection Hl' as <-. by rewrite Hc in Hc'.
    + split.
      * intros [= <-]. exists saved, st1, st2, cleared, st3.
        repeat split; try done.
        unfold after_call; simpl. by rewrite <- !app_assoc.
      * intros (? & ? & ? & ? & ? & [= <- <-] & Hl' & Hc' & ->).
        rewrite Hl in Hl'. injection Hl' as <-.
        rewrite Hc in Hc'. injection Hc' as <- <-.
        unfold after_call; simpl. by rewrite <- !app_assoc.
  - split; [done|].
    intros (? & ? & ? & ? & ? & [= <- <-] & Hl' & _).
    rewrite Hl in Hl'. congruence.
Qed.

End MoreOperations.

(** ** The probe on a functional service *)

(** X8: on a functional service the probe returns, whatever the store
    held: it sends its three requests, logs nothing, and leaves in the
    store exactly the items that were there and do not match its test
    schema and attributes, so that nothing of the probe stays behind. *)
Theorem trial_run_on_functional_service (w : World (list Keyring.Item)) :
  ∃ w' : World (list Keyring.Item),
    trial_run Keyring.service w = (inr (), w')
    ∧ calls w' = calls w ++ [test_save; test_load; test_clear]
    ∧ log w' = log w
    ∧ ∀ it, it ∈ service_state w' ↔
            it ∈ service_state w
            ∧ ¬ Keyring.Matches test_schema test_attributes it.
Proof.
  pose proof (keyring_lookup_stored test_agent "Test Data" (service_state w)) as Hfound.
  cbn [test_agent _schema _attributes _collection _label] in Hfound.
  eexists. split.
  { rewrite trial_run_run, trial_run_body_run. cbn zeta.
    unfold probe_store, probe_lookup, probe_clear.
    cbn [Keyring.service Secret.password_store_sync Secret.password_lookup_sync
         Secret.password_clear_sync].
    change ((Keyring.store test_schema test_attributes None "" "Test Data"
               (service_state w)).1) with (@inr exception bool true).
    cbn match. rewrite Hfound. cbn match.
    rewrite bool_decide_eq_true_2 by done.
    unfold Keyring.clear at 1; cbn [fst]. reflexivity. }
  cbn [calls log service_state after_call].
  split; [by rewrite <- !app_assoc|]. split; [done|].
  intros it. unfold Keyring.clear, Keyring.lookup, Keyring.store; cbn [fst snd].
  rewrite list_elem_of_filter, elem_of_cons, list_elem_of_filter.
  split.
  - intros (Hno & [->|(_ & Hin)]); [|done].
    exfalso. apply Hno. by split.
  - intros (Hin & Hno). split; [done|]. right. split; [|done]. tauto.
Qed.

(** ** Runs of the further properties *)

(** Two attribute dicts with the same keys and other values. *)
Lemma schema_ignores_attribute_values_witness :
  dom ({[ "attr1" := "foo"; "attr2" := "bar" ]} : gmap string string)
  = dom ({[ "attr1" := "1"; "attr2" := "2" ]} : gmap string string)
  ∧ _schema (__init__ "Test Schema" (Some {[ "attr1" := "foo"; "attr2" := "bar" ]})
               "a" None None)
    = _schema (__init__ "Test Schema" (Some {[ "attr1" := "1"; "attr2" := "2" ]})
                 "b" None (Some "session")).
Proof.
  assert (Hdom : dom ({[ "attr1" := "foo"; "attr2" := "bar" ]} : gmap string string)
                 = dom ({[ "attr1" := "1"; "attr2" := "2" ]} : gmap string string)).
  { by vm_compute. }
  split; [exact Hdom|].
  exact (schema_ignores_attribute_values "Test Schema" _ _ "a" "b" None None
           (Some "session") Hdom).
Defined.

(** Types that say [STRING] for one attribute, and [BOOLEAN] for a key
    that is no attribute. *)
Lemma all_string_types_as_none_witness :
  __init__ "Test Schema" (Some {[ "attr1" := "foo"; "attr2" := "bar" ]}) ""
    (Some {[ "attr1" := Secret.STRING; "zzz" := Secret.BOOLEAN ]}) None
  = __init__ "Test Schema" (Some {[ "attr1" := "foo"; "attr2" := "bar" ]}) ""
      None None.
Proof.
  apply all_string_types_as_none. intros k type Hk Ht.
  destruct (decide (k = "attr1")) as [->|H1].
  - vm_compute in Ht. congruence.
  - destruct (decide (k = "zzz")) as [->|H2].
    + apply elem_of_dom in Hk as [v Hv]. vm_compute in Hv. congruence.
    + rewrite lookup_insert_ne, lookup_singleton_ne in Ht by done. done.
Defined.

(** ** Lives of an adapter on a service that keeps what it is asked *)

(** C5, as stated, fails: the caller builds an adapter on its dict
    [{"attr1": "foo"}], loads, sets [attr2] in the dict and loads again.
    The second time the service is passed attributes with [attr2], under
    the schema built for [attr1] alone: not the pair of the
    construction. *)
Lemma filter_changes_with_callers_dict :
  let h0 : gmap nat (gmap string string) := {[ 0 := {[ "attr1" := "foo" ]} ]} in
  let made := construct "Test Schema" (Some 0) "" None None h0 in
  let built := __init__ "Test Schema" (Some {[ "attr1" := "foo" ]}) "" None None in
  let life :=
    [agent_call call_load; caller_setitem 0 "attr2" "bar"; agent_call call_load] in
  let received :=
    service_state (run_steps recording_service life (made.2, made.1, fresh [])).2.2 in
  Secret.attribute_types (_schema built) = {[ "attr1" := Secret.STRING ]}
  ∧ received
    = [ Secret.password_lookup (_schema built) {[ "attr1" := "foo" ]};
        Secret.password_lookup (_schema built)
          {[ "attr1" := "foo"; "attr2" := "bar" ]} ]
  ∧ ¬ Forall (λ r, request_filter r = (_schema built, _attributes built)) received.
Proof.
  cbn zeta.
  assert (Hreceived :
    service_state
      (run_steps recording_service
         [agent_call call_load; caller_setitem 0 "attr2" "bar"; agent_call call_load]
         ((construct "Test Schema" (Some 0) "" None None
             {[ 0 := {[ "attr1" := "foo" ]} ]}).2,
          (construct "Test Schema" (Some 0) "" None None
             {[ 0 := {[ "attr1" := "foo" ]} ]}).1,
          fresh [])).2.2
    = [ Secret.password_lookup
          (_schema (__init__ "Test Schema" (Some {[ "attr1" := "foo" ]}) "" None None))
          {[ "attr1" := "foo" ]};
        Secret.password_lookup
          (_schema (__init__ "Test Schema" (Some {[ "attr1" := "foo" ]}) "" None None))
          {[ "attr1" := "foo"; "attr2" := "bar" ]} ]).
  { vm_compute. reflexivity. }
  split; [by vm_compute|]. split; [exact Hreceived|].
  rewrite Hreceived. intros Hall.
  apply Forall_cons in Hall as [_ Hall]. apply Forall_cons in Hall as [Hsecond _].
  cbn [request_filter] in Hsecond.
  apply (f_equal snd) in Hsecond. apply (f_equal (.!! "attr2")) in Hsecond.
  vm_compute in Hsecond. discriminate.
Qed.

(** A caller that passes an empty dict shares nothing: the adapter has a
    dict of its own, and what the caller puts in its dict later is not
    sent. *)
Example empty_dict_is_not_shared :
  let h0 : gmap nat (gmap string string) := {[ 0 := ∅ ]} in
  let made := construct "Test Schema" (Some 0) "" None None h0 in
  service_state
    (run_steps recording_service
       [caller_setitem 0 "attr1" "foo"; agent_call call_load]
       (made.2, made.1, fresh [])).2.2
  = [ Secret.password_lookup (Secret.Schema_new "Test Schema" Secret.NONE ∅) ∅ ].
Proof. by vm_compute. Qed.

(** A life in which the caller changes another dict than the one it gave
    to the adapter. *)
Lemma filter_follows_the_dict_witness :
  let h0 : gmap nat (gmap string string) :=
    {[ 0 := {[ "attr1" := "foo" ]}; 1 := {[ "other" := "x" ]} ]} in
  let o := (construct "Test Schema" (Some 0) "" None None h0).1 in
  let h := (construct "Test Schema" (Some 0) "" None None h0).2 in
  let built := __init__ "Test Schema" (content h0 <$> Some 0) "" None None in
  let life :=
    [agent_call (call_save "Test Data"); caller_setitem 1 "attr2" "bar";
     agent_call call_load; caller_pop 1 "other"; agent_call call_clear] in
  Forall (leaves (object_attributes o)) life
  ∧ Forall (λ r, request_filter r = (_schema built, _attributes built))
           (lifetime_requests h o life).
Proof.
  cbn zeta.
  assert (Hleaves :
    Forall (leaves (object_attributes
                      (construct "Test Schema" (Some 0) "" None None
                         {[ 0 := {[ "attr1" := "foo" ]}; 1 := {[ "other" := "x" ]} ]}).1))
      [agent_call (call_save "Test Data"); caller_setitem 1 "attr2" "bar";
       agent_call call_load; caller_pop 1 "other"; agent_call call_clear]).
  { repeat constructor; vm_compute; discriminate. }
  split; [exact Hleaves|].
  exact (proj1 (proj2 (proj2 (proj2
           (filter_follows_the_dict recording_service "Test Schema" (Some 0) "" None None
              {[ 0 := {[ "attr1" := "foo" ]}; 1 := {[ "other" := "x" ]} ]}
              [agent_call (call_save "Test Data"); caller_setitem 1 "attr2" "bar";
               agent_call call_load; caller_pop 1 "other"; agent_call call_clear]
              (fresh []))))) Hleaves).
Defined.
